(** * Options yield scanner: pricing model and screening pipeline

    A shallow embedding of [options_scanner.py] (the command-line
    front end) and [options_scanner_app.py] (the Streamlit front end).
    Both files contain the same pricing function and the same screening
    pipeline; where they differ the embedding takes the front end as a
    parameter.

    Numbers.  Python and NumPy floats are embedded as the real numbers
    [R]: [np.log] is [ln], [np.sqrt] is [sqrt], [scipy.stats.norm.cdf] is
    the standard normal distribution function.  Rounding, infinities and
    NaN are outside this model; the theorems about the pricing formula
    state the domain ([S > 0], [K > 0], [T > 0], [sigma > 0]) on which the
    real-number reading of the formula is the intended one.

    Data frames.  A pandas data frame is embedded as the list of its rows,
    in index order; a boolean-mask selection [df[mask]] is [filter], a
    column assignment is [fmap] into a record with one more field. *)

From Stdlib Require Import Reals Lra ZArith Lia.
From stdpp Require Import base decidable option list sorting strings.

#[local] Open Scope R_scope.

(** ** Decidable comparisons on [R] *)

#[global] Instance Rle_decision (x y : R) : Decision (x <= y) := Rle_dec x y.
#[global] Instance Rlt_decision (x y : R) : Decision (x < y) := Rlt_dec x y.
#[global] Instance Rge_decision (x y : R) : Decision (x >= y) := Rge_dec x y.
#[global] Instance Rgt_decision (x y : R) : Decision (x > y) := Rgt_dec x y.
#[global] Instance Req_decision : EqDecision R := Req_dec_T.

(** ** [scipy.stats.norm.cdf]

    The standard normal density and its distribution function, written
    as one half plus the integral of the density from [0]. *)

Definition norm_pdf (t : R) : R := exp (- (t ^ 2) / 2) / sqrt (2 * PI).

Lemma norm_pdf_continuous (x : R) : continuity_pt norm_pdf x.
Proof. apply derivable_continuous_pt. unfold norm_pdf. reg. Qed.

Lemma norm_pdf_pos (t : R) : 0 < norm_pdf t.
Proof.
  unfold norm_pdf. apply Rdiv_lt_0_compat; [apply exp_pos|].
  apply sqrt_lt_R0. pose proof PI_RGT_0. lra.
Qed.

Lemma norm_pdf_integrable (a b : R) : Riemann_integrable norm_pdf a b.
Proof.
  destruct (Rle_dec a b) as [Hab|Hab].
  - apply continuity_implies_RiemannInt; [exact Hab|].
    intros; apply norm_pdf_continuous.
  - apply RiemannInt_P1, continuity_implies_RiemannInt; [lra|].
    intros; apply norm_pdf_continuous.
Qed.

Definition norm_cdf (x : R) : R :=
  1 / 2 + RiemannInt (norm_pdf_integrable 0 x).

(** ** Pricing model: [black_scholes_delta] *)

Definition black_scholes_delta (S K T r sigma : R) (option_type : string) : R :=
  if decide (T <= 0 \/ sigma <= 0) then 0
  else
    let d1 := (ln (S / K) + (r + 0.5 * sigma ^ 2) * T) / (sigma * sqrt T) in
    if decide (option_type = "call") then norm_cdf d1
    else norm_cdf d1 - 1.

(** ** Data model *)

(** The two front ends. *)
Inductive frontend := Cli | App.

(** The values of the input variables once the prompts (or widgets) have
    been read.  [delta_target] is [None] when the prompt was left empty;
    [delta_bound_type] is [None] when the command-line front end did not
    ask for it.  Dates are day numbers. *)
Record ScreeningParameters := {
  symbol : string;
  option_type : string;
  delta_target : option R;
  delta_bound_type : option string;
  min_weekly_yield : R;
  max_exp_date : Z;
  max_bid_ask_spread : R
}.

(** One row of [chain.calls] or [chain.puts], with the columns the
    pipeline reads. *)
Record ContractQuote := {
  contractSymbol : string;
  strike : R;
  bid : R;
  ask : R;
  impliedVolatility : R
}.

Record Chain := {
  calls : list ContractQuote;
  puts : list ContractQuote
}.

(** Rows of the frame as columns are added to it. *)
Record Dated := {
  quote : ContractQuote;
  expiration : Z;
  days_to_exp : Z
}.

Record Measured := {
  dated : Dated;
  T : R;
  mid : R;
  bid_ask_spread : R
}.

Record Priced := {
  measured : Measured;
  delta_calc : R
}.

Record ScoredCandidate := {
  priced : Priced;
  intrinsic : R;
  extrinsic_premium : R;
  total_yield : R;
  weekly_yield : R;
  expected_utility_yield : R;
  expected_weekly_yield : R
}.

Definition candidate_quote (c : ScoredCandidate) : ContractQuote :=
  quote (dated (measured (priced c))).

(** [r = 0.05], the static risk-free rate. *)
Definition r : R := 0.05.

(** ** Input handling *)

(** Python truthiness of [delta_target]: [None] and [0.0] are false. *)
Definition truthy (x : option R) : bool :=
  match x with
  | None => false
  | Some v => bool_decide (v <> 0)
  end.

(** Line 24 of the command-line front end: the bound is asked for only
    when [delta_target] is truthy. *)
Definition cli_delta_bound_type (delta_target : option R) (answer : string)
  : option string :=
  if truthy delta_target then Some answer else None.

(** ** Per-expiration stage *)

Definition select_side (option_type : string) (chain : Chain)
  : list ContractQuote :=
  if decide (option_type = "call") then calls chain else puts chain.

Definition add_expiration (exp today : Z) (q : ContractQuote) : Dated :=
  {| quote := q; expiration := exp; days_to_exp := (exp - today)%Z |}.

Definition add_measures (d : Dated) : Measured :=
  {| dated := d;
     T := IZR (days_to_exp d) / 365.0;
     mid := (bid (quote d) + ask (quote d)) / 2;
     bid_ask_spread := ask (quote d) - bid (quote d) |}.

Definition add_delta (current_price : R) (option_type : string) (row : Measured)
  : Priced :=
  {| measured := row;
     delta_calc :=
       black_scholes_delta current_price (strike (quote (dated row))) (T row) r
         (impliedVolatility (quote (dated row))) option_type |}.

(** The second arm of the bound test: [elif delta_bound_type == 'max'] in
    the command-line front end, a plain [else] in the Streamlit one. *)
Definition max_arm (fe : frontend) (p : ScreeningParameters) : bool :=
  match fe with
  | Cli => bool_decide (delta_bound_type p = Some "max")
  | App => true
  end.

Definition delta_filter (fe : frontend) (p : ScreeningParameters)
    (df : list Priced) : list Priced :=
  if truthy (delta_target p) then
    let delta_target := default 0 (delta_target p) in
    if decide (option_type p = "put") then
      if decide (delta_bound_type p = Some "min") then
        filter (fun c => delta_calc c <= - Rabs delta_target) df
      else if max_arm fe p then
        filter (fun c => delta_calc c >= - Rabs delta_target) df
      else df
    else
      if decide (delta_bound_type p = Some "min") then
        filter (fun c => delta_calc c >= delta_target) df
      else if max_arm fe p then
        filter (fun c => delta_calc c <= delta_target) df
      else df
  else df.

(** [Series.clip(lower=0)]. *)
Definition clip_lower_0 (x : R) : R := Rmax x 0.

Definition add_yields (current_price : R) (option_type : string) (c : Priced)
  : ScoredCandidate :=
  let q := quote (dated (measured c)) in
  let days := IZR (days_to_exp (dated (measured c))) in
  let intrinsic :=
    if decide (option_type = "call") then clip_lower_0 (current_price - strike q)
    else clip_lower_0 (strike q - current_price) in
  let extrinsic_premium := mid (measured c) - intrinsic in
  let total_yield := extrinsic_premium / strike q in
  let weekly_yield := total_yield / (days / 7) in
  let expected_utility_yield :=
    if decide (option_type = "put") then total_yield * (1 - Rabs (delta_calc c))
    else total_yield * Rabs (delta_calc c) in
  {| priced := c;
     intrinsic := intrinsic;
     extrinsic_premium := extrinsic_premium;
     total_yield := total_yield;
     weekly_yield := weekly_yield;
     expected_utility_yield := expected_utility_yield;
     expected_weekly_yield := expected_utility_yield / (days / 7) |}.

(** The body of the [try] block from [df = df.copy()] to the last
    selection, on the rows of the side that was picked.  A selection
    that leaves no row leaves an empty frame, and the column
    assignments after it add their columns to the empty frame. *)
Definition process_frame (fe : frontend) (p : ScreeningParameters)
    (current_price : R) (today exp : Z) (df : list ContractQuote)
  : list ScoredCandidate :=
  let df := add_expiration exp today <$> df in
  let df := filter (fun d => (days_to_exp d > 0)%Z) df in
  let df := add_measures <$> df in
  let df := filter (fun m => bid_ask_spread m <= max_bid_ask_spread p) df in
  let df := filter (fun m => impliedVolatility (quote (dated m)) > 0) df in
  let df := add_delta current_price (option_type p) <$> df in
  let df := delta_filter fe p df in
  let df := add_yields current_price (option_type p) <$> df in
  filter (fun c => weekly_yield c >= min_weekly_yield p) df.

(** ** Ranking: [DataFrame.sort_values]

    [sort_values(by=[k1, k2], ascending=False)] orders the rows by the
    keys, largest first, the second key deciding among rows equal on
    the first; with more than one key pandas sorts with a stable
    lexicographic sort, so rows equal on every key keep their order.
    The embedding is the stable insertion sort for a "comes strictly
    before" relation. *)

Section stable_sort.
Context {A : Type} (before : A -> A -> Prop).
Context `{!forall x y, Decision (before x y)}.

Fixpoint insert_row (x : A) (l : list A) : list A :=
  match l with
  | [] => [x]
  | y :: l' =>
      if decide (before y x) then y :: insert_row x l' else x :: y :: l'
  end.

Definition stable_sort (l : list A) : list A := foldr insert_row [] l.
End stable_sort.

(** Row [a] comes strictly before row [b] under
    [by=['weekly_yield', 'expected_weekly_yield'], ascending=False]. *)
Definition ranks_before (a b : ScoredCandidate) : Prop :=
  weekly_yield a > weekly_yield b \/
  (weekly_yield a = weekly_yield b /\
   expected_weekly_yield a > expected_weekly_yield b).

#[global] Instance ranks_before_dec a b : Decision (ranks_before a b).
Proof. unfold ranks_before. apply _. Defined.

Definition sort_values (df : list ScoredCandidate) : list ScoredCandidate :=
  stable_sort ranks_before df.

(** Row [a] does not come after row [b]: larger [weekly_yield], or the
    same and an [expected_weekly_yield] at least as large. *)
Definition ranks_not_after (a b : ScoredCandidate) : Prop :=
  weekly_yield a > weekly_yield b \/
  (weekly_yield a = weekly_yield b /\
   expected_weekly_yield a >= expected_weekly_yield b).

(** Rows with the sort keys of [k]. *)
Definition same_keys (k c : ScoredCandidate) : Prop :=
  weekly_yield c = weekly_yield k /\
  expected_weekly_yield c = expected_weekly_yield k.

#[global] Instance same_keys_dec k c : Decision (same_keys k c).
Proof. unfold same_keys. apply _. Defined.

(** ** Effects: provider queries, messages, early exit, exceptions *)

Inductive exn :=
| IndexError
| Failure (what : string).

(** The market data provider behind [yf.Ticker(symbol)]: each query
    either raises or answers.  [options] stands for the parsed list
    [ticker.options]; [option_chain exp] for the whole fetch of one
    expiration's chain. *)
Record Ticker := {
  options : exn + list Z;
  history_close : exn + R;
  option_chain : Z -> exn + Chain
}.

Inductive event :=
| Query_options
| Query_history
| Query_option_chain (exp : Z)
| Print_error_expirations (e : exn)
| Print_error_price
| Print_skip (exp : Z) (e : exn)
| Print_no_match
| Print_table (rows : list ScoredCandidate)
| Print_best (best : ScoredCandidate).

(** How a computation ends: with a value, by leaving [main] ([return]
    in the command-line front end, [st.stop()] in the Streamlit one),
    or with an exception. *)
Inductive result (A : Type) :=
| Value (a : A)
| Exit
| Raise (e : exn).
Arguments Value {A} a.
Arguments Exit {A}.
Arguments Raise {A} e.

(** A computation: how it ends and what it did, oldest event first. *)
Definition M (A : Type) : Type := result A * list event.

Definition ret {A} (a : A) : M A := (Value a, []).
Definition exit {A} : M A := (Exit, []).
Definition raise {A} (e : exn) : M A := (Raise e, []).
Definition emit (ev : event) : M unit := (Value tt, [ev]).

Definition bind {A B} (m : M A) (k : A -> M B) : M B :=
  match m.1 with
  | Value a => ((k a).1, m.2 ++ (k a).2)
  | Exit => (Exit, m.2)
  | Raise e => (Raise e, m.2)
  end.

(** [try: m  except Exception as e: h e]. *)
Definition try_except {A} (m : M A) (h : exn -> M A) : M A :=
  match m.1 with
  | Raise e => ((h e).1, m.2 ++ (h e).2)
  | _ => m
  end.

Notation "x <- m ;; k" := (bind m (fun x => k))
  (at level 100, m at next level, right associativity).
Notation "m ;;; k" := (bind m (fun _ => k))
  (at level 100, right associativity).

(** A provider query: the event, then the answer or the exception. *)
Definition query {A} (ev : event) (answer : exn + A) : M A :=
  emit ev;;;
  match answer with
  | inl e => raise e
  | inr a => ret a
  end.

(** [df.iloc[0]]. *)
Definition iloc_0 {A} (df : list A) : M A :=
  match df with
  | [] => raise IndexError
  | row :: _ => ret row
  end.

(** ** The scan *)

(** The [try] body for one expiration. *)
Definition process_expiration (fe : frontend) (p : ScreeningParameters)
    (current_price : R) (today : Z) (ticker : Ticker) (exp : Z)
  : M (list ScoredCandidate) :=
  chain <- query (Query_option_chain exp) (option_chain ticker exp);;
  ret (process_frame fe p current_price today exp
         (select_side (option_type p) chain)).

(** [for exp in expirations: try: ... all_options.append(df)
    except Exception as e: print(...); continue]. *)
Fixpoint scan_expirations (fe : frontend) (p : ScreeningParameters)
    (current_price : R) (today : Z) (ticker : Ticker)
    (expirations : list Z) (all_options : list (list ScoredCandidate))
  : M (list (list ScoredCandidate)) :=
  match expirations with
  | [] => ret all_options
  | exp :: rest =>
      all_options <-
        try_except
          (df <- process_expiration fe p current_price today ticker exp;;
           ret (all_options ++ [df]))
          (fun e => emit (Print_skip exp e);;; ret all_options);;
      scan_expirations fe p current_price today ticker rest all_options
  end.

(** [head(10)] on the command line, [head(20)] in the Streamlit app. *)
Definition head_rows (fe : frontend) : nat :=
  match fe with
  | Cli => 10%nat
  | App => 20%nat
  end.

(** [main()] of the command-line front end and the body of the scan
    button of the Streamlit one, after the inputs are read.  [today] is
    the date [datetime.now().date()] gives during the scan.  The
    two-decimal formatting of the strike column and the selection of the
    displayed columns are presentation and are left out. *)
Definition main (fe : frontend) (p : ScreeningParameters) (today : Z)
    (ticker : Ticker) : M unit :=
  expirations <-
    try_except
      (dates <- query Query_options (options ticker);;
       ret (filter (fun d => (d <= max_exp_date p)%Z) dates))
      (fun e => emit (Print_error_expirations e);;; exit);;
  current_price <-
    try_except
      (query Query_history (history_close ticker))
      (fun _ => emit Print_error_price;;; exit);;
  all_options <-
    scan_expirations fe p current_price today ticker expirations [];;
  match all_options with
  | [] => emit Print_no_match;;; exit
  | _ =>
      let final_df := concat all_options in
      let final_df := sort_values final_df in
      emit (Print_table (take (head_rows fe) final_df));;;
      best <- iloc_0 final_df;;
      emit (Print_best best)
  end.

(** ** Derived notions used to state the properties *)

(** All the columns of a candidate, computed from the quote it comes
    from: the column assignments of the [try] body without its
    selections. *)
Definition score_quote (p : ScreeningParameters) (current_price : R)
    (today exp : Z) (q : ContractQuote) : ScoredCandidate :=
  add_yields current_price (option_type p)
    (add_delta current_price (option_type p)
       (add_measures (add_expiration exp today q))).

(** The delta stage as the specification words it, for a target [t]:
    which rows each combination of option type and bound keeps. *)
Definition delta_bound_keeps (p : ScreeningParameters) (t : R)
    (df out : list Priced) : Prop :=
  (option_type p = "put" -> delta_bound_type p = Some "min" ->
     out = filter (fun c => delta_calc c <= - Rabs t) df) /\
  (option_type p = "put" -> delta_bound_type p = Some "max" ->
     out = filter (fun c => delta_calc c >= - Rabs t) df) /\
  (option_type p = "call" -> delta_bound_type p = Some "min" ->
     out = filter (fun c => delta_calc c >= t) df) /\
  (option_type p = "call" -> delta_bound_type p = Some "max" ->
     out = filter (fun c => delta_calc c <= t) df).

Definition set_delta_target (p : ScreeningParameters) (t : option R)
  : ScreeningParameters :=
  {| symbol := symbol p;
     option_type := option_type p;
     delta_target := t;
     delta_bound_type := delta_bound_type p;
     min_weekly_yield := min_weekly_yield p;
     max_exp_date := max_exp_date p;
     max_bid_ask_spread := max_bid_ask_spread p |}.

(** The frames of the expirations whose [try] body ran to its end, in
    the order of the loop. *)
Definition succeeded_frames (fe : frontend) (p : ScreeningParameters)
    (current_price : R) (today : Z) (ticker : Ticker) (expirations : list Z)
  : list (list ScoredCandidate) :=
  omap (fun exp =>
          match option_chain ticker exp with
          | inl _ => None
          | inr chain =>
              Some (process_frame fe p current_price today exp
                      (select_side (option_type p) chain))
          end) expirations.

(** What the loop does, expiration by expiration: the chain query, and
    the skip message when the body raised. *)
Definition loop_events (ticker : Ticker) (expirations : list Z) : list event :=
  expirations ≫= fun exp =>
    Query_option_chain exp ::
    match option_chain ticker exp with
    | inl e => [Print_skip exp e]
    | inr _ => []
    end.

Definition is_query (ev : event) : Prop :=
  match ev with
  | Query_options | Query_history | Query_option_chain _ => True
  | _ => False
  end.

(** Parameter objects the specification wants rejected. *)
Definition invalid_parameters (p : ScreeningParameters) : Prop :=
  (is_Some (delta_target p) /\
   delta_bound_type p <> Some "min" /\ delta_bound_type p <> Some "max") \/
  (option_type p <> "call" /\ option_type p <> "put").

(** A run that fails on its parameters before any provider query. *)
Definition fails_before_provider {A} (m : M A) : Prop :=
  (exists e, m.1 = Raise e) /\ Forall (fun ev => ~ is_query ev) m.2.

(** A run that reports "no candidates": the message is printed, nothing
    is raised, and neither a table nor a best candidate is shown. *)
Definition reports_no_candidates {A} (m : M A) : Prop :=
  Print_no_match ∈ m.2 /\
  (forall e, m.1 <> Raise e) /\
  (forall rows, Print_table rows ∉ m.2) /\
  (forall best, Print_best best ∉ m.2).

(** ** Concrete scans *)

Module Scenario.

(** An at-the-money call, 30 days out, tightly quoted. *)
Definition atm : ContractQuote :=
  {| contractSymbol := "QQQ-C-100"; strike := 100;
     bid := 2; ask := 2.2; impliedVolatility := 0.3 |}.

Definition params (option_type : string) (delta_target : option R)
    (delta_bound_type : option string) : ScreeningParameters :=
  {| symbol := "QQQ"; option_type := option_type;
     delta_target := delta_target; delta_bound_type := delta_bound_type;
     min_weekly_yield := 0.001; max_exp_date := 60;
     max_bid_ask_spread := 0.25 |}.

(** No delta filter, and a weekly yield of at least 100% asked for. *)
Definition greedy : ScreeningParameters :=
  {| symbol := "QQQ"; option_type := "call";
     delta_target := None; delta_bound_type := None;
     min_weekly_yield := 1; max_exp_date := 60;
     max_bid_ask_spread := 0.25 |}.

(** The Streamlit defaults for the delta widgets: target [0.0], and a
    bound picked all the same. *)
Definition app_zero_target : ScreeningParameters :=
  params "call" (Some 0) (Some "max").

(** A command-line answer that is neither [min] nor [max]. *)
Definition cli_bad_bound : ScreeningParameters :=
  params "call" (Some 0.5) (Some "medium").

Definition no_filter : ScreeningParameters := params "call" None None.

Definition atm_priced : Priced :=
  add_delta 100 "call" (add_measures (add_expiration 30 0 atm)).

(** One expiration with one contract. *)
Definition atm_only : Ticker :=
  {| options := inr [30%Z];
     history_close := inr 100;
     option_chain := fun _ => inr {| calls := [atm]; puts := [] |} |}.

(** Three expirations; the chain of the second cannot be processed. *)
Definition one_bad_expiration : Ticker :=
  {| options := inr [30%Z; 37%Z; 44%Z];
     history_close := inr 100;
     option_chain := fun exp =>
       if decide (exp = 37%Z) then inl (Failure "bad chain")
       else inr {| calls := [atm]; puts := [] |} |}.

(** A provider that cannot list the expirations. *)
Definition no_expirations : Ticker :=
  {| options := inl (Failure "no expirations");
     history_close := inr 100;
     option_chain := fun _ => inl (Failure "unreachable") |}.

End Scenario.

(** ** Notions used to state further properties *)

(** The test the delta stage applies to the delta of one row. *)
Definition delta_keeps (fe : frontend) (p : ScreeningParameters) (delta : R)
  : Prop :=
  if truthy (delta_target p) then
    let delta_target := default 0 (delta_target p) in
    if decide (option_type p = "put") then
      if decide (delta_bound_type p = Some "min") then
        delta <= - Rabs delta_target
      else if max_arm fe p then delta >= - Rabs delta_target
      else True
    else
      if decide (delta_bound_type p = Some "min") then delta >= delta_target
      else if max_arm fe p then delta <= delta_target
      else True
  else True.

#[global] Instance delta_keeps_dec fe p delta : Decision (delta_keeps fe p delta).
Proof. unfold delta_keeps. repeat case_match; apply _. Defined.

(** A quote that passes every selection of the [try] body. *)
Definition survives (fe : frontend) (p : ScreeningParameters)
    (current_price : R) (today exp : Z) (q : ContractQuote) : Prop :=
  (exp - today > 0)%Z /\
  ask q - bid q <= max_bid_ask_spread p /\
  impliedVolatility q > 0 /\
  delta_keeps fe p
    (delta_calc (priced (score_quote p current_price today exp q))) /\
  weekly_yield (score_quote p current_price today exp q) >= min_weekly_yield p.

#[global] Instance survives_dec fe p current_price today exp q :
  Decision (survives fe p current_price today exp q).
Proof. unfold survives. apply _. Defined.

Definition set_min_weekly_yield (p : ScreeningParameters) (y : R)
  : ScreeningParameters :=
  {| symbol := symbol p;
     option_type := option_type p;
     delta_target := delta_target p;
     delta_bound_type := delta_bound_type p;
     min_weekly_yield := y;
     max_exp_date := max_exp_date p;
     max_bid_ask_spread := max_bid_ask_spread p |}.

Definition set_max_bid_ask_spread (p : ScreeningParameters) (s : R)
  : ScreeningParameters :=
  {| symbol := symbol p;
     option_type := option_type p;
     delta_target := delta_target p;
     delta_bound_type := delta_bound_type p;
     min_weekly_yield := min_weekly_yield p;
     max_exp_date := max_exp_date p;
     max_bid_ask_spread := s |}.

(** The expirations whose chains a run asked for, in the order asked. *)
Definition chain_queries (events : list event) : list Z :=
  omap (fun ev =>
          match ev with
          | Query_option_chain exp => Some exp
          | _ => None
          end) events.

(** The standardized log-moneyness term of the pricing formula. *)
Definition d1 (S K T r sigma : R) : R :=
  (ln (S / K) + (r + 0.5 * sigma ^ 2) * T) / (sigma * sqrt T).

(** * Properties *)

(** ** The normal distribution function *)

Lemma norm_cdf_0 : norm_cdf 0 = 1 / 2.
Proof. unfold norm_cdf. rewrite RiemannInt_P9. lra. Qed.

Lemma norm_cdf_diff (x y : R) :
  norm_cdf y - norm_cdf x = RiemannInt (norm_pdf_integrable x y).
Proof.
  unfold norm_cdf.
  pose proof (RiemannInt_P26 (norm_pdf_integrable 0 x)
                (norm_pdf_integrable x y) (norm_pdf_integrable 0 y)).
  lra.
Qed.

Lemma norm_cdf_mono (x y : R) : x <= y -> norm_cdf x <= norm_cdf y.
Proof.
  intros Hxy. pose proof (norm_cdf_diff x y) as Hd.
  assert (Hz : Riemann_integrable (fct_cte 0) x y) by apply RiemannInt_P14.
  pose proof (RiemannInt_P19 Hz (norm_pdf_integrable x y) Hxy) as Hle.
  rewrite RiemannInt_P15 in Hle.
  assert (0 * (y - x) <= RiemannInt (norm_pdf_integrable x y)).
  { apply Hle. intros t _. unfold fct_cte. left. apply norm_pdf_pos. }
  lra.
Qed.

Lemma norm_cdf_ge_half (x : R) : 0 <= x -> 1 / 2 <= norm_cdf x.
Proof. intros Hx. rewrite <- norm_cdf_0. by apply norm_cdf_mono. Qed.

(** ** The pricing model *)

Lemma black_scholes_delta_regular (S K T r sigma : R) (option_type : string) :
  T > 0 -> sigma > 0 ->
  black_scholes_delta S K T r sigma option_type =
    let d1 := (ln (S / K) + (r + 0.5 * sigma ^ 2) * T) / (sigma * sqrt T) in
    if decide (option_type = "call") then norm_cdf d1 else norm_cdf d1 - 1.
Proof.
  intros HT Hs. unfold black_scholes_delta.
  destruct (decide (T <= 0 \/ sigma <= 0)) as [[?|?]|_]; [lra|lra|done].
Qed.

(** C3. Whatever the spot, strike, rate and option type, the delta of a
    contract with [T <= 0] or [sigma <= 0] is exactly [0]; the function
    is total, so nothing is raised. *)
Theorem black_scholes_delta_degenerate
    (S K T r sigma : R) (option_type : string) :
  T <= 0 \/ sigma <= 0 ->
  black_scholes_delta S K T r sigma option_type = 0.
Proof.
  intros Hdeg. unfold black_scholes_delta.
  destruct (decide (T <= 0 \/ sigma <= 0)); [reflexivity | contradiction].
Qed.

Lemma black_scholes_delta_degenerate_witness :
  (0 <= 0 \/ 0.3 <= 0) /\
  black_scholes_delta 100 95 0 0.05 0.3 "put" = 0.
Proof.
  split; [left; lra |].
  apply (black_scholes_delta_degenerate 100 95 0 0.05 0.3 "put").
  left; lra.
Defined.

(** C6. Put-call delta parity: on positive spot, strike, time and
    volatility the call delta minus the put delta is exactly [1]. *)
Theorem put_call_delta_parity (S K T r sigma : R) :
  S > 0 -> K > 0 -> T > 0 -> sigma > 0 ->
  black_scholes_delta S K T r sigma "call"
  - black_scholes_delta S K T r sigma "put" = 1.
Proof.
  intros _ _ HT Hs.
  rewrite !black_scholes_delta_regular by assumption.
  cbv zeta.
  destruct (decide ("call" = "call")) as [_|Hne]; [|contradiction].
  destruct (decide ("put" = "call")) as [Heq|_]; [discriminate|].
  lra.
Qed.

Lemma put_call_delta_parity_witness :
  black_scholes_delta 100 95 (30 / 365) 0.05 0.3 "call"
  - black_scholes_delta 100 95 (30 / 365) 0.05 0.3 "put" = 1.
Proof. apply (put_call_delta_parity 100 95 (30 / 365) 0.05 0.3); lra. Defined.

Lemma d1_mono (S1 S2 K T r sigma : R) :
  K > 0 -> T > 0 -> sigma > 0 -> 0 < S1 -> S1 <= S2 ->
  (ln (S1 / K) + (r + 0.5 * sigma ^ 2) * T) / (sigma * sqrt T)
  <= (ln (S2 / K) + (r + 0.5 * sigma ^ 2) * T) / (sigma * sqrt T).
Proof.
  intros HK HT Hs HS1 HS.
  assert (Hden : 0 < sigma * sqrt T).
  { apply Rmult_lt_0_compat; [lra | by apply sqrt_lt_R0]. }
  assert (Hq1 : 0 < S1 / K) by (apply Rdiv_lt_0_compat; lra).
  assert (Hq : S1 / K <= S2 / K).
  { unfold Rdiv. apply Rmult_le_compat_r; [|lra].
    left. by apply Rinv_0_lt_compat. }
  assert (Hln : ln (S1 / K) <= ln (S2 / K)).
  { destruct Hq as [Hlt|Heq]; [left; by apply ln_increasing | rewrite Heq; lra]. }
  unfold Rdiv at 1 3. apply Rmult_le_compat_r; [|lra].
  left. by apply Rinv_0_lt_compat.
Qed.

(** C9. With strike, time, rate and volatility fixed (and positive where
    the formula needs it), the delta is non-decreasing in the spot, for
    calls and for puts. *)
Theorem black_scholes_delta_mono_spot (S1 S2 K T r sigma : R) :
  K > 0 -> T > 0 -> sigma > 0 -> 0 < S1 -> S1 <= S2 ->
  black_scholes_delta S1 K T r sigma "call"
    <= black_scholes_delta S2 K T r sigma "call" /\
  black_scholes_delta S1 K T r sigma "put"
    <= black_scholes_delta S2 K T r sigma "put".
Proof.
  intros HK HT Hs HS1 HS.
  rewrite !black_scholes_delta_regular by assumption. cbv zeta.
  pose proof (norm_cdf_mono _ _ (d1_mono S1 S2 K T r sigma HK HT Hs HS1 HS)).
  destruct (decide ("call" = "call")) as [_|Hne]; [|contradiction].
  destruct (decide ("put" = "call")) as [Heq|_]; [discriminate|].
  lra.
Qed.

Lemma black_scholes_delta_mono_spot_witness :
  black_scholes_delta 100 95 (30 / 365) 0.05 0.3 "call"
    <= black_scholes_delta 105 95 (30 / 365) 0.05 0.3 "call" /\
  black_scholes_delta 100 95 (30 / 365) 0.05 0.3 "put"
    <= black_scholes_delta 105 95 (30 / 365) 0.05 0.3 "put".
Proof.
  apply (black_scholes_delta_mono_spot 100 105 95 (30 / 365) 0.05 0.3); lra.
Defined.

(** ** Ranking *)

Section stable_sort_facts.
Context {A : Type} (before : A -> A -> Prop).
Context `{!forall x y, Decision (before x y)}.

Lemma insert_row_perm (x : A) (l : list A) :
  insert_row before x l ≡ₚ x :: l.
Proof.
  induction l as [|y l IH]; simpl; [done|].
  case_decide; [|done]. rewrite IH. apply Permutation_swap.
Qed.

Lemma stable_sort_perm (l : list A) : stable_sort before l ≡ₚ l.
Proof.
  induction l as [|x l IH]; simpl; [done|].
  by rewrite insert_row_perm, IH.
Qed.

(** Filtering on a class of rows none of which comes before another:
    insertion puts a row of the class in front of the rows of the class
    that were there. *)
Lemma filter_insert_row (P : A -> Prop) `{!forall x, Decision (P x)}
    (x : A) (l : list A) :
  (forall a b, P a -> P b -> ~ before a b) ->
  filter P (insert_row before x l) = filter P (x :: l).
Proof.
  intros Htie. induction l as [|y l IH]; simpl; [done|].
  case_decide as Hyx; [|done].
  rewrite !filter_cons in *.
  destruct (decide (P y)) as [Py|nPy], (decide (P x)) as [Px|nPx];
    try (by rewrite IH).
  exfalso. by apply (Htie y x).
Qed.

Lemma stable_sort_stable (P : A -> Prop) `{!forall x, Decision (P x)}
    (l : list A) :
  (forall a b, P a -> P b -> ~ before a b) ->
  filter P (stable_sort before l) = filter P l.
Proof.
  intros Htie. induction l as [|x l IH]; simpl; [done|].
  rewrite filter_insert_row by done.
  rewrite !filter_cons. by rewrite IH.
Qed.

Context (not_after : A -> A -> Prop).
Hypothesis not_after_iff : forall a b, not_after a b <-> ~ before b a.
Hypothesis before_asym : forall a b, before a b -> ~ before b a.
Hypothesis not_after_trans :
  forall a b c, not_after a b -> not_after b c -> not_after a c.

Lemma insert_row_sorted (x : A) (l : list A) :
  StronglySorted not_after l ->
  StronglySorted not_after (insert_row before x l).
Proof.
  induction 1 as [|y l Hs IH Hall]; simpl.
  - repeat constructor.
  - case_decide as Hyx.
    + constructor; [done|].
      rewrite insert_row_perm. constructor; [|done].
      apply not_after_iff. by apply before_asym.
    + assert (Hxy : not_after x y) by by apply not_after_iff.
      constructor; [by constructor|].
      constructor; [done|].
      eapply Forall_impl; [exact Hall|]. intros z Hz.
      by apply (not_after_trans x y z).
Qed.

Lemma stable_sort_sorted (l : list A) :
  StronglySorted not_after (stable_sort before l).
Proof.
  induction l as [|x l IH]; simpl; [constructor|].
  by apply insert_row_sorted.
Qed.
End stable_sort_facts.

Lemma ranks_not_after_iff (a b : ScoredCandidate) :
  ranks_not_after a b <-> ~ ranks_before b a.
Proof. unfold ranks_not_after, ranks_before. split; [lra|]. intros H.
  destruct (Rtotal_order (weekly_yield a) (weekly_yield b)) as [?|[?|?]];
  destruct (Rtotal_order (expected_weekly_yield a) (expected_weekly_yield b))
    as [?|[?|?]]; try lra; exfalso; apply H; lra.
Qed.

Lemma sort_values_perm (df : list ScoredCandidate) : sort_values df ≡ₚ df.
Proof. apply stable_sort_perm. Qed.

(** C4. The ranking orders the surviving candidates by [weekly_yield],
    largest first, ties broken by [expected_weekly_yield], largest
    first; it is a rearrangement of its input; and candidates equal on
    both keys keep the relative order they had before the sort. *)
Theorem sort_values_ranks (df : list ScoredCandidate) :
  sort_values df ≡ₚ df /\
  StronglySorted ranks_not_after (sort_values df) /\
  forall k, filter (same_keys k) (sort_values df) = filter (same_keys k) df.
Proof.
  split; [apply sort_values_perm|]. unfold sort_values. split.
  - apply stable_sort_sorted.
    + apply ranks_not_after_iff.
    + unfold ranks_before. intros a b; lra.
    + unfold ranks_not_after. intros a b c; lra.
  - intros k. apply stable_sort_stable.
    unfold same_keys, ranks_before. intros a b; lra.
Qed.

(** ** The per-expiration stage *)

Lemma Forall_sublist {A} (P : A -> Prop) (l k : list A) :
  l `sublist_of` k -> Forall P k -> Forall P l.
Proof.
  induction 1 as [|x l k _ IH|x l k _ IH]; intros Hk.
  - constructor.
  - inversion_clear Hk. constructor; auto.
  - inversion_clear Hk. auto.
Qed.

Lemma delta_filter_sublist (fe : frontend) (p : ScreeningParameters)
    (df : list Priced) :
  delta_filter fe p df `sublist_of` df.
Proof.
  unfold delta_filter.
  repeat (case_match || case_decide); done || apply sublist_filter.
Qed.

Lemma delta_filter_falsy (fe : frontend) (p : ScreeningParameters)
    (df : list Priced) :
  truthy (delta_target p) = false -> delta_filter fe p df = df.
Proof. intros H. unfold delta_filter. by rewrite H. Qed.

Lemma truthy_Some (t : R) : t <> 0 -> truthy (Some t) = true.
Proof. intros H. simpl. by apply bool_decide_eq_true. Qed.

Lemma truthy_Some_0 : truthy (Some 0) = false.
Proof. simpl. apply bool_decide_eq_false. intros H. by apply H. Qed.

Lemma candidate_quote_score (p : ScreeningParameters) (current_price : R)
    (today exp : Z) (q : ContractQuote) :
  candidate_quote (score_quote p current_price today exp q) = q.
Proof. reflexivity. Qed.

(** The frame that leaves the stage is the fully scored frame with rows
    taken out, in the same order. *)
Lemma process_frame_sublist (fe : frontend) (p : ScreeningParameters)
    (current_price : R) (today exp : Z) (df : list ContractQuote) :
  process_frame fe p current_price today exp df
    `sublist_of` (score_quote p current_price today exp <$> df).
Proof.
  assert (Hall : score_quote p current_price today exp <$> df =
            add_yields current_price (option_type p) <$>
              (add_delta current_price (option_type p) <$>
                 (add_measures <$> (add_expiration exp today <$> df)))).
  { rewrite <- !list_fmap_compose. reflexivity. }
  rewrite Hall. unfold process_frame.
  etrans; [apply sublist_filter|].
  apply fmap_sublist. etrans; [apply delta_filter_sublist|].
  apply fmap_sublist. etrans; [apply sublist_filter|].
  etrans; [apply sublist_filter|].
  apply fmap_sublist, sublist_filter.
Qed.

(** C8. The per-expiration stage only narrows: the quotes of the
    candidates it outputs are a sub-sequence of the input quotes (each
    candidate comes from one input row of its own, in order), and every
    candidate is the scoring of the quote it carries. *)
Theorem process_frame_narrows (fe : frontend) (p : ScreeningParameters)
    (current_price : R) (today exp : Z) (df : list ContractQuote) :
  (candidate_quote <$> process_frame fe p current_price today exp df)
    `sublist_of` df /\
  Forall (fun c => candidate_quote c ∈ df /\
                   c = score_quote p current_price today exp (candidate_quote c))
    (process_frame fe p current_price today exp df).
Proof.
  pose proof (process_frame_sublist fe p current_price today exp df) as Hsub.
  split.
  - apply (fmap_sublist candidate_quote) in Hsub.
    rewrite <- list_fmap_compose in Hsub.
    assert (Hid : candidate_quote ∘ score_quote p current_price today exp
                    <$> df = df).
    { clear Hsub. induction df as [|q df IH]; [done|].
      rewrite fmap_cons, IH. reflexivity. }
    by rewrite Hid in Hsub.
  - eapply Forall_sublist; [exact Hsub|].
    apply Forall_fmap, Forall_forall. intros q Hq. simpl.
    by rewrite candidate_quote_score.
Qed.

(** C2, amended.  With a target delta that is present and not zero, the
    delta stage keeps exactly: for puts, [delta <= -|target|] under
    [min] and [delta >= -|target|] under [max]; for calls,
    [delta >= target] under [min] and [delta <= target] under [max]. *)
Theorem delta_filter_keeps (fe : frontend) (p : ScreeningParameters) (t : R)
    (df : list Priced) :
  delta_target p = Some t -> t <> 0 ->
  delta_bound_keeps p t df (delta_filter fe p df).
Proof.
  intros Ht Hne. unfold delta_bound_keeps, delta_filter, max_arm.
  rewrite Ht, (truthy_Some t Hne). simpl.
  repeat split; intros Hot Hb; rewrite Hot, Hb.
  - done.
  - destruct fe; done.
  - done.
  - destruct fe; done.
Qed.

Lemma delta_filter_keeps_witness :
  delta_bound_keeps (Scenario.params "put" (Some 0.3) (Some "min")) 0.3
    [Scenario.atm_priced]
    (delta_filter Cli (Scenario.params "put" (Some 0.3) (Some "min"))
       [Scenario.atm_priced]).
Proof.
  apply (delta_filter_keeps Cli (Scenario.params "put" (Some 0.3) (Some "min"))
           0.3 [Scenario.atm_priced]).
  - reflexivity.
  - lra.
Defined.

(** The at-the-money call of the scenario has a delta of at least one
    half. *)
Lemma atm_priced_delta : 1 / 2 <= delta_calc Scenario.atm_priced.
Proof.
  unfold Scenario.atm_priced, add_delta, add_measures, add_expiration.
  cbn [delta_calc measured dated quote T days_to_exp strike impliedVolatility
       Scenario.atm].
  change (30 - 0)%Z with 30%Z.
  rewrite black_scholes_delta_regular by lra. cbv zeta.
  destruct (decide ("call" = "call")) as [_|Hne]; [|contradiction].
  apply norm_cdf_ge_half.
  replace (100 / 100) with 1 by lra. rewrite ln_1.
  apply Rmult_le_pos.
  - unfold r. lra.
  - left. apply Rinv_0_lt_compat, Rmult_lt_0_compat; [lra|].
    apply sqrt_lt_R0. lra.
Qed.

(** C2 as stated fails: with the target present and equal to [0.0] the
    stage keeps a call of positive delta under [max], where the stated
    rule [delta <= 0] drops it. *)
Lemma delta_filter_keeps_counterexample :
  ~ (forall (fe : frontend) (p : ScreeningParameters) (t : R) (df : list Priced),
       delta_target p = Some t ->
       delta_bound_keeps p t df (delta_filter fe p df)).
Proof.
  intros Hclaim.
  destruct (Hclaim App Scenario.app_zero_target 0 [Scenario.atm_priced]
              eq_refl) as (_ & _ & _ & Hmax).
  specialize (Hmax eq_refl eq_refl).
  rewrite delta_filter_falsy in Hmax by apply truthy_Some_0.
  rewrite filter_cons in Hmax.
  pose proof atm_priced_delta.
  destruct (decide (delta_calc Scenario.atm_priced <= 0)); [lra|].
  discriminate Hmax.
Qed.

(** C10. A target delta supplied as [0.0] is falsy: the delta stage
    passes every row whatever the bound, the stage as a whole behaves as
    with no target, and the command-line front end does not even ask for
    the bound. *)
Theorem zero_target_skips_delta_filter (fe : frontend)
    (p : ScreeningParameters) :
  delta_target p = Some 0 ->
  (forall df, delta_filter fe p df = df) /\
  (forall current_price today exp df,
     process_frame fe p current_price today exp df =
     process_frame fe (set_delta_target p None) current_price today exp df) /\
  (forall answer, cli_delta_bound_type (delta_target p) answer = None).
Proof.
  intros H0.
  assert (Hskip : forall df, delta_filter fe p df = df).
  { intros df. apply delta_filter_falsy. rewrite H0. apply truthy_Some_0. }
  split; [exact Hskip|]. split.
  - intros current_price today exp df. unfold process_frame.
    rewrite Hskip. by rewrite delta_filter_falsy.
  - intros answer. unfold cli_delta_bound_type.
    rewrite H0. by rewrite truthy_Some_0.
Qed.

Lemma zero_target_skips_delta_filter_witness :
  delta_filter App Scenario.app_zero_target [Scenario.atm_priced]
  = [Scenario.atm_priced].
Proof.
  apply (zero_target_skips_delta_filter App Scenario.app_zero_target eq_refl).
Defined.

(** ** The scan *)

Lemma process_expiration_run (fe : frontend) (p : ScreeningParameters)
    (current_price : R) (today : Z) (ticker : Ticker) (exp : Z) :
  process_expiration fe p current_price today ticker exp =
    match option_chain ticker exp with
    | inl e => (Raise e, [Query_option_chain exp])
    | inr chain =>
        (Value (process_frame fe p current_price today exp
                  (select_side (option_type p) chain)),
         [Query_option_chain exp])
    end.
Proof.
  unfold process_expiration, query.
  destruct (option_chain ticker exp); reflexivity.
Qed.

(** The loop never raises: it ends with the frames of the expirations
    that succeeded appended to the accumulator, having queried every
    expiration and printed a skip for each one that failed. *)
Lemma scan_expirations_run (fe : frontend) (p : ScreeningParameters)
    (current_price : R) (today : Z) (ticker : Ticker)
    (expirations : list Z) (all_options : list (list ScoredCandidate)) :
  scan_expirations fe p current_price today ticker expirations all_options =
    (Value (all_options ++
            succeeded_frames fe p current_price today ticker expirations),
     loop_events ticker expirations).
Proof.
  revert all_options.
  induction expirations as [|exp rest IH]; intros all_options.
  - simpl. by rewrite app_nil_r.
  - cbn [scan_expirations]. rewrite process_expiration_run.
    unfold succeeded_frames, loop_events in *. cbn [omap list_omap mbind list_bind].
    destruct (option_chain ticker exp) as [e|chain]; unfold bind, try_except;
      cbn [fst snd ret emit]; rewrite IH; cbn [fst snd].
    + reflexivity.
    + by rewrite <- app_assoc.
Qed.

Lemma bind_value {A B} (a : A) (tr : list event) (k : A -> M B) :
  bind (Value a, tr) k = ((k a).1, tr ++ (k a).2).
Proof. reflexivity. Qed.

Lemma bind_raise {A B} (e : exn) (tr : list event) (k : A -> M B) :
  bind (Raise e, tr) k = (Raise e, tr).
Proof. reflexivity. Qed.

Lemma try_except_value {A} (a : A) (tr : list event) (h : exn -> M A) :
  try_except (Value a, tr) h = (Value a, tr).
Proof. reflexivity. Qed.

Lemma try_except_raise {A} (e : exn) (tr : list event) (h : exn -> M A) :
  try_except (Raise e, tr) h = ((h e).1, tr ++ (h e).2).
Proof. reflexivity. Qed.

Lemma query_inr {A} (ev : event) (a : A) : query ev (inr a) = (Value a, [ev]).
Proof. reflexivity. Qed.

Lemma query_inl {A} (ev : event) (e : exn) :
  query (A:=A) ev (inl e) = (Raise e, [ev]).
Proof. reflexivity. Qed.

(** One step of a run whose head is known. *)
Ltac run_m :=
  repeat first
    [ rewrite bind_value | rewrite bind_raise
    | rewrite try_except_value | rewrite try_except_raise
    | progress cbn [ret emit exit raise iloc_0 fst snd app] ].

Lemma main_no_expirations (fe : frontend) (p : ScreeningParameters)
    (today : Z) (ticker : Ticker) (e : exn) :
  options ticker = inl e ->
  main fe p today ticker = (Exit, [Query_options; Print_error_expirations e]).
Proof. intros He. unfold main. rewrite He, query_inl. by run_m. Qed.

Lemma main_no_price (fe : frontend) (p : ScreeningParameters)
    (today : Z) (ticker : Ticker) (dates : list Z) (e : exn) :
  options ticker = inr dates -> history_close ticker = inl e ->
  main fe p today ticker = (Exit, [Query_options; Query_history; Print_error_price]).
Proof. intros Hd He. unfold main. rewrite Hd, He, query_inl, query_inr. by run_m. Qed.

(** The whole run once the expiration list and the spot price are in. *)
Lemma main_run (fe : frontend) (p : ScreeningParameters) (today : Z)
    (ticker : Ticker) (dates : list Z) (current_price : R) :
  options ticker = inr dates -> history_close ticker = inr current_price ->
  let expirations := filter (fun d => (d <= max_exp_date p)%Z) dates in
  let frames :=
    succeeded_frames fe p current_price today ticker expirations in
  let final_df := sort_values (concat frames) in
  main fe p today ticker =
    (match frames, final_df with
     | [], _ => Exit
     | _ :: _, [] => Raise IndexError
     | _ :: _, _ :: _ => Value tt
     end,
     [Query_options; Query_history] ++ loop_events ticker expirations ++
     match frames with
     | [] => [Print_no_match]
     | _ :: _ =>
         Print_table (take (head_rows fe) final_df) ::
         match final_df with
         | [] => []
         | best :: _ => [Print_best best]
         end
     end).
Proof.
  intros Hd Hp. cbv zeta. unfold main. rewrite Hd, Hp, !query_inr.
  run_m. rewrite scan_expirations_run. run_m.
  destruct (succeeded_frames _ _ _ _ _ _) as [|df frames]; [by run_m|].
  run_m. destruct (sort_values _) as [|best rows]; by run_m.
Qed.

Lemma elem_of_loop_events (ticker : Ticker) (expirations : list Z)
    (ev : event) :
  ev ∈ loop_events ticker expirations <->
  exists exp, exp ∈ expirations /\
    (ev = Query_option_chain exp \/
     exists e, option_chain ticker exp = inl e /\ ev = Print_skip exp e).
Proof.
  unfold loop_events. rewrite list_elem_of_bind. split.
  - intros (exp & Hev & Hexp). exists exp. split; [done|].
    apply elem_of_cons in Hev as [->|Hev]; [by left|]. right.
    destruct (option_chain ticker exp) as [e|chain].
    + apply list_elem_of_singleton in Hev. eauto.
    + by apply elem_of_nil in Hev.
  - intros (exp & Hexp & [->|(e & He & ->)]); exists exp; (split; [|done]).
    + apply elem_of_cons; by left.
    + rewrite He. apply elem_of_cons; right. by apply list_elem_of_singleton.
Qed.

Lemma atm_is_dropped (fe : frontend) :
  process_frame fe Scenario.greedy 100 0 30 [Scenario.atm] = [].
Proof.
  unfold process_frame. cbn [fmap list_fmap].
  rewrite filter_cons, decide_True by (simpl; lia). rewrite filter_nil.
  cbn [fmap list_fmap].
  rewrite filter_cons, decide_True by (simpl; lra). rewrite filter_nil.
  rewrite filter_cons, decide_True by (simpl; lra). rewrite filter_nil.
  cbn [fmap list_fmap]. rewrite delta_filter_falsy by reflexivity.
  cbn [fmap list_fmap]. rewrite filter_cons, filter_nil.
  case_decide as Hyield; [|done].
  exfalso. revert Hyield. unfold add_yields, clip_lower_0, Rmax.
  cbn [weekly_yield measured dated quote mid days_to_exp strike bid ask
       add_delta add_measures add_expiration Scenario.atm Scenario.greedy
       option_type min_weekly_yield].
  change (30 - 0)%Z with 30%Z.
  destruct (decide ("call" = "call")) as [_|Hne]; [|contradiction].
  destruct (Rle_dec (100 - 100) 0); lra.
Qed.

(** C1, on the code.  One expiration is processed without an exception
    and its only contract fails the weekly-yield filter: the run prints
    an empty table and then raises [IndexError]; the "no candidates"
    message is not printed. *)
Theorem no_survivor_scan_raises (fe : frontend) :
  main fe Scenario.greedy 0 Scenario.atm_only =
    (Raise IndexError,
     [Query_options; Query_history; Query_option_chain 30; Print_table []]) /\
  ~ reports_no_candidates (main fe Scenario.greedy 0 Scenario.atm_only).
Proof.
  assert (Hrun : main fe Scenario.greedy 0 Scenario.atm_only =
    (Raise IndexError,
     [Query_options; Query_history; Query_option_chain 30; Print_table []])).
  { rewrite (main_run fe Scenario.greedy 0 Scenario.atm_only [30%Z] 100
               eq_refl eq_refl).
    rewrite filter_cons, decide_True by (simpl; lia).
    rewrite filter_nil. unfold succeeded_frames, loop_events.
    cbn [omap list_omap mbind list_bind Scenario.atm_only option_chain app].
    change (select_side _ _) with [Scenario.atm].
    rewrite atm_is_dropped. cbn. by rewrite take_nil. }
  split; [exact Hrun|].
  rewrite Hrun. intros (_ & Hraise & _). by apply (Hraise IndexError).
Qed.

(** Whenever some expiration is processed and nothing survives, the run
    ends with [IndexError] after printing an empty table. *)
Lemma empty_table_raises (fe : frontend) (p : ScreeningParameters) (today : Z)
    (ticker : Ticker) (dates : list Z) (current_price : R) :
  options ticker = inr dates -> history_close ticker = inr current_price ->
  let expirations := filter (fun d => (d <= max_exp_date p)%Z) dates in
  let frames :=
    succeeded_frames fe p current_price today ticker expirations in
  frames <> [] -> concat frames = [] ->
  main fe p today ticker =
    (Raise IndexError,
     [Query_options; Query_history] ++ loop_events ticker expirations ++
     [Print_table []]).
Proof.
  intros Hd Hp expirations frames Hne Hempty.
  rewrite (main_run fe p today ticker dates current_price Hd Hp). cbv zeta.
  fold expirations. fold frames. rewrite Hempty.
  destruct frames; [done|]. cbn. by rewrite take_nil.
Qed.

(** Membership in a literal list, case by case. *)
Ltac elem_cases H :=
  repeat (apply elem_of_cons in H as [H|H]; [try discriminate H|]);
  try (by apply elem_of_nil in H).

(** C7. An exception in the [try] body of one expiration is caught: the
    loop ends normally with exactly the frames of the expirations that
    succeeded, every expiration is still queried, a skip is printed for
    an expiration exactly when its body raised, and the only table the
    run shows is the head of the ranking of the survivors of the
    expirations that succeeded. *)
Theorem failed_expirations_are_skipped (fe : frontend)
    (p : ScreeningParameters) (today : Z) (ticker : Ticker)
    (dates : list Z) (current_price : R) :
  options ticker = inr dates -> history_close ticker = inr current_price ->
  let expirations := filter (fun d => (d <= max_exp_date p)%Z) dates in
  let frames :=
    succeeded_frames fe p current_price today ticker expirations in
  let final_df := sort_values (concat frames) in
  scan_expirations fe p current_price today ticker expirations [] =
    (Value frames, loop_events ticker expirations) /\
  (forall exp, exp ∈ expirations ->
     Query_option_chain exp ∈ (main fe p today ticker).2) /\
  (forall exp e,
     Print_skip exp e ∈ (main fe p today ticker).2 <->
     exp ∈ expirations /\ option_chain ticker exp = inl e) /\
  (forall rows,
     Print_table rows ∈ (main fe p today ticker).2 <->
     frames <> [] /\ rows = take (head_rows fe) final_df) /\
  final_df ≡ₚ concat frames.
Proof.
  intros Hd Hp expirations frames final_df.
  split; [apply scan_expirations_run|].
  rewrite (main_run fe p today ticker dates current_price Hd Hp). cbv zeta.
  fold expirations. fold frames. fold final_df. cbn [snd].
  split; [|split; [|split]].
  - intros exp Hexp. rewrite !elem_of_app. right; left.
    apply elem_of_loop_events. eauto.
  - intros exp e. rewrite !elem_of_app, elem_of_loop_events.
    rewrite !elem_of_cons, elem_of_nil. split.
    + intros [[?|[?|[]]]|[(exp' & Hexp & [?|(e' & He & Heq)])|Htail]];
        try discriminate.
      * by simplify_eq.
      * exfalso. destruct frames, final_df; elem_cases Htail.
    + intros [Hexp He]. right; left. exists exp. eauto.
  - intros rows. rewrite !elem_of_app, elem_of_loop_events.
    rewrite !elem_of_cons, elem_of_nil. split.
    + intros [[?|[?|[]]]|[(exp' & Hexp & [?|(e' & He & Heq)])|Htail]];
        try discriminate.
      destruct frames, final_df; elem_cases Htail;
        simplify_eq; by split.
    + intros [Hne ->]. right; right.
      destruct frames; [done|]. apply list_elem_of_here.
  - apply sort_values_perm.
Qed.

Lemma failed_expirations_are_skipped_witness :
  Print_skip 37 (Failure "bad chain")
    ∈ (main Cli Scenario.no_filter 0 Scenario.one_bad_expiration).2.
Proof.
  pose proof (failed_expirations_are_skipped Cli Scenario.no_filter 0
                Scenario.one_bad_expiration [30%Z; 37%Z; 44%Z] 100
                eq_refl eq_refl) as (_ & _ & Hskip & _).
  apply Hskip. split; [|reflexivity].
  rewrite !filter_cons, !decide_True by (simpl; lia).
  apply list_elem_of_further, list_elem_of_here.
Defined.

(** Whatever the parameters, the first thing a run does is ask the
    provider for the expiration dates. *)
Lemma main_queries_first (fe : frontend) (p : ScreeningParameters)
    (today : Z) (ticker : Ticker) :
  exists events, (main fe p today ticker).2 = Query_options :: events.
Proof.
  destruct (options ticker) as [e|dates] eqn:Hd.
  - rewrite (main_no_expirations fe p today ticker e Hd). eauto.
  - destruct (history_close ticker) as [e|current_price] eqn:Hp.
    + rewrite (main_no_price fe p today ticker dates e Hd Hp). eauto.
    + rewrite (main_run fe p today ticker dates current_price Hd Hp). eauto.
Qed.

(** C5 as stated fails: a command-line scan with a target delta of
    [0.5] and the bound answered "medium" raises nothing on its
    parameters and goes to the provider. *)
Lemma no_parameter_validation_counterexample :
  ~ (forall (fe : frontend) (p : ScreeningParameters) (today : Z)
       (ticker : Ticker),
       invalid_parameters p -> fails_before_provider (main fe p today ticker)).
Proof.
  intros Hclaim.
  destruct (Hclaim Cli Scenario.cli_bad_bound 0%Z Scenario.no_expirations)
    as [[e He] _].
  - left. split; [by eexists|]. split; discriminate.
  - rewrite (main_no_expirations Cli Scenario.cli_bad_bound 0
               Scenario.no_expirations _ eq_refl) in He.
    discriminate He.
Qed.

(** C5, amended.  No parameter is validated.  For a parameter object
    with a target delta and a bound outside [min], [max], or with an
    option type outside [call], [put], the run still starts with the
    provider query for the expiration dates; with a truthy target and
    such a bound the command-line delta stage passes every row; and an
    option type other than [call] selects the put side of the chain. *)
Theorem no_parameter_validation (fe : frontend) (p : ScreeningParameters)
    (today : Z) (ticker : Ticker) :
  invalid_parameters p ->
  (exists events, (main fe p today ticker).2 = Query_options :: events) /\
  (truthy (delta_target p) = true ->
   delta_bound_type p <> Some "min" -> delta_bound_type p <> Some "max" ->
   forall df, delta_filter Cli p df = df) /\
  (option_type p <> "call" ->
   forall chain, select_side (option_type p) chain = puts chain).
Proof.
  intros _. split; [apply main_queries_first|]. split.
  - intros Ht Hmin Hmax df. unfold delta_filter, max_arm. rewrite Ht.
    rewrite !(decide_False (P := delta_bound_type p = Some "min")) by done.
    rewrite (bool_decide_eq_false_2 (delta_bound_type p = Some "max")) by done.
    by destruct (decide (option_type p = "put")).
  - intros Hcall chain. unfold select_side. by rewrite decide_False.
Qed.

Lemma no_parameter_validation_witness :
  invalid_parameters Scenario.cli_bad_bound /\
  (exists events,
     (main Cli Scenario.cli_bad_bound 0 Scenario.no_expirations).2
     = Query_options :: events) /\
  delta_filter Cli Scenario.cli_bad_bound [Scenario.atm_priced]
  = [Scenario.atm_priced].
Proof.
  assert (Hbad : invalid_parameters Scenario.cli_bad_bound).
  { left. split; [by eexists|]. split; discriminate. }
  split; [exact Hbad|].
  destruct (no_parameter_validation Cli Scenario.cli_bad_bound 0
              Scenario.no_expirations Hbad) as (Hfirst & Hskip & _).
  split; [exact Hfirst|].
  apply Hskip.
  - apply truthy_Some. lra.
  - discriminate.
  - discriminate.
Defined.

(** * Further properties of the pipeline *)

Lemma filter_fmap_comm {A B} (f : A -> B) (P : B -> Prop)
    `{!forall y, Decision (P y)} (l : list A) :
  filter P (f <$> l) = f <$> filter (fun x => P (f x)) l.
Proof.
  induction l as [|x l IH]; [done|].
  rewrite fmap_cons, !filter_cons, IH. by case_decide.
Qed.

Lemma filter_all {A} (P : A -> Prop) `{!forall x, Decision (P x)} (l : list A) :
  (forall x, P x) -> filter P l = l.
Proof.
  intros HP. induction l as [|x l IH]; [done|].
  by rewrite filter_cons, decide_True, IH.
Qed.

Lemma filter_none {A} (P : A -> Prop) `{!forall x, Decision (P x)} (l : list A) :
  (forall x, ~ P x) -> filter P l = [].
Proof.
  intros HP. induction l as [|x l IH]; [done|].
  by rewrite filter_cons, decide_False, IH.
Qed.

Lemma filter_sublist_impl {A} (P Q : A -> Prop) `{!forall x, Decision (P x)}
    `{!forall x, Decision (Q x)} (l : list A) :
  (forall x, P x -> Q x) -> filter P l `sublist_of` filter Q l.
Proof.
  intros HPQ. induction l as [|x l IH]; [done|].
  rewrite !filter_cons.
  destruct (decide (P x)) as [HP|HP], (decide (Q x)) as [HQ|HQ].
  - by apply sublist_skip.
  - destruct HQ; auto.
  - by apply sublist_cons.
  - done.
Qed.

Lemma delta_filter_as_filter (fe : frontend) (p : ScreeningParameters)
    (df : list Priced) :
  delta_filter fe p df = filter (fun c => delta_keeps fe p (delta_calc c)) df.
Proof.
  unfold delta_filter.
  destruct (truthy (delta_target p)) eqn:Ht;
    [|symmetry; apply filter_all; intros c; unfold delta_keeps; by rewrite Ht].
  destruct (decide (option_type p = "put")) as [Hput|Hput],
    (decide (delta_bound_type p = Some "min")) as [Hmin|Hmin],
    (max_arm fe p) eqn:Hmax;
    try (apply list_filter_iff; intros c; unfold delta_keeps;
         rewrite Ht, Hmax;
         rewrite ?(decide_True (P := option_type p = "put")) by done;
         rewrite ?(decide_False (P := option_type p = "put")) by done;
         rewrite ?(decide_True (P := delta_bound_type p = Some "min")) by done;
         rewrite ?(decide_False (P := delta_bound_type p = Some "min")) by done;
         done);
    (symmetry; apply filter_all; intros c; unfold delta_keeps;
     rewrite Ht, Hmax;
     rewrite ?(decide_True (P := option_type p = "put")) by done;
     rewrite ?(decide_False (P := option_type p = "put")) by done;
     rewrite ?(decide_False (P := delta_bound_type p = Some "min")) by done;
     done).
Qed.

(** The per-expiration stage is one selection followed by the scoring. *)
Lemma process_frame_as_filter (fe : frontend) (p : ScreeningParameters)
    (current_price : R) (today exp : Z) (df : list ContractQuote) :
  process_frame fe p current_price today exp df =
    score_quote p current_price today exp <$>
      filter (survives fe p current_price today exp) df.
Proof.
  unfold process_frame. rewrite delta_filter_as_filter.
  rewrite !filter_fmap_comm, !list_filter_filter.
  rewrite <- !list_fmap_compose.
  f_equal. apply list_filter_iff. intros q.
  unfold survives, score_quote. cbn. tauto.
Qed.

(** X1. The output of the per-expiration stage is the scoring of
    exactly the quotes that pass every test (positive days to
    expiration, spread, implied volatility, delta bound, weekly yield),
    in their input order: nothing that passes is lost and nothing that
    fails gets through. *)
Theorem process_frame_survivors (fe : frontend) (p : ScreeningParameters)
    (current_price : R) (today exp : Z) (df : list ContractQuote) :
  process_frame fe p current_price today exp df =
    score_quote p current_price today exp <$>
      filter (survives fe p current_price today exp) df /\
  forall c,
    c ∈ process_frame fe p current_price today exp df <->
    exists q, q ∈ df /\ survives fe p current_price today exp q /\
              c = score_quote p current_price today exp q.
Proof.
  split; [apply process_frame_as_filter|].
  intros c. rewrite process_frame_as_filter, list_elem_of_fmap.
  split.
  - intros (q & -> & Hq). apply list_elem_of_filter in Hq as [Hs Hq]. eauto.
  - intros (q & Hq & Hs & ->). exists q. split; [done|].
    by apply list_elem_of_filter.
Qed.

(** X2. An expiration that is today or in the past contributes no
    candidate, whatever its chain holds. *)
Theorem expired_expiration_is_empty (fe : frontend) (p : ScreeningParameters)
    (current_price : R) (today exp : Z) (df : list ContractQuote) :
  (exp <= today)%Z ->
  process_frame fe p current_price today exp df = [].
Proof.
  intros Hexp. rewrite process_frame_as_filter, filter_none; [done|].
  intros q [Hdays _]. lia.
Qed.

Lemma expired_expiration_is_empty_witness :
  process_frame Cli Scenario.no_filter 100 30 30 [Scenario.atm] = [].
Proof.
  apply (expired_expiration_is_empty Cli Scenario.no_filter 100 30 30
           [Scenario.atm]).
  lia.
Defined.

(** X3. Every candidate that leaves the stage has a positive number of
    days to expiration, a spread within the limit, a positive implied
    volatility and a weekly yield of at least the minimum (the minimum
    itself passes); its time and volatility being positive, its delta
    never comes from the degenerate branch of the pricing function: it
    is the normal distribution function at [d1] for a call and that
    value minus one otherwise. *)
Theorem survivors_pass_every_test (fe : frontend) (p : ScreeningParameters)
    (current_price : R) (today exp : Z) (df : list ContractQuote) :
  Forall (fun c =>
            let m := measured (priced c) in
            let q := candidate_quote c in
            (days_to_exp (dated m) > 0)%Z /\
            T m > 0 /\
            bid_ask_spread m <= max_bid_ask_spread p /\
            impliedVolatility q > 0 /\
            weekly_yield c >= min_weekly_yield p /\
            delta_keeps fe p (delta_calc (priced c)) /\
            delta_calc (priced c) =
              let x := d1 current_price (strike q) (T m) r (impliedVolatility q) in
              if decide (option_type p = "call") then norm_cdf x
              else norm_cdf x - 1)
    (process_frame fe p current_price today exp df).
Proof.
  rewrite process_frame_as_filter. apply Forall_fmap, Forall_forall.
  intros q Hq. apply list_elem_of_filter in Hq as [Hs _].
  destruct Hs as (Hdays & Hspread & Hiv & Hdelta & Hyield).
  assert (HT : IZR (exp - today) / 365.0 > 0).
  { apply Rdiv_lt_0_compat; [|lra]. apply IZR_lt. lia. }
  cbn. repeat (split; [done|]).
  by rewrite black_scholes_delta_regular.
Qed.

(** X4. Tightening the thresholds only removes candidates: with a
    higher minimum weekly yield and a lower maximum spread the output is
    a sub-sequence of the output under the looser thresholds. *)
Theorem tighter_thresholds_narrow (fe : frontend) (p : ScreeningParameters)
    (current_price : R) (today exp : Z) (df : list ContractQuote)
    (y1 y2 s1 s2 : R) :
  y1 <= y2 -> s1 <= s2 ->
  process_frame fe (set_min_weekly_yield (set_max_bid_ask_spread p s1) y2)
    current_price today exp df
  `sublist_of`
  process_frame fe (set_min_weekly_yield (set_max_bid_ask_spread p s2) y1)
    current_price today exp df.
Proof.
  intros Hy Hs. rewrite !process_frame_as_filter.
  apply fmap_sublist, filter_sublist_impl.
  intros q (Hdays & Hspread & Hiv & Hdelta & Hyield).
  unfold survives. repeat split; try done.
  - revert Hspread. cbn. lra.
  - revert Hyield. cbn. unfold score_quote. cbn. lra.
Qed.

Lemma tighter_thresholds_narrow_witness :
  process_frame Cli
    (set_min_weekly_yield (set_max_bid_ask_spread Scenario.no_filter 0.1) 0.01)
    100 0 30 [Scenario.atm]
  `sublist_of`
  process_frame Cli
    (set_min_weekly_yield (set_max_bid_ask_spread Scenario.no_filter 0.25) 0.001)
    100 0 30 [Scenario.atm].
Proof.
  apply (tighter_thresholds_narrow Cli Scenario.no_filter 100 0 30
           [Scenario.atm] 0.001 0.01 0.1 0.25); lra.
Defined.

(** X5. The two front ends select the same candidates whenever the
    delta filter is off (no target, or a target of zero) or the bound is
    [min] or [max]. *)
Theorem front_ends_agree (p : ScreeningParameters) (current_price : R)
    (today exp : Z) (df : list ContractQuote) :
  truthy (delta_target p) = false \/
  delta_bound_type p = Some "min" \/ delta_bound_type p = Some "max" ->
  process_frame Cli p current_price today exp df =
  process_frame App p current_price today exp df.
Proof.
  intros Hok. unfold process_frame.
  assert (Hdf : forall rows, delta_filter Cli p rows = delta_filter App p rows);
    [|by rewrite Hdf].
  intros rows. destruct Hok as [Hoff|[Hmin|Hmax]].
  - by rewrite !delta_filter_falsy.
  - unfold delta_filter.
    by rewrite !(decide_True (P := delta_bound_type p = Some "min")).
  - unfold delta_filter, max_arm. by rewrite (bool_decide_eq_true_2 _ Hmax).
Qed.

Lemma front_ends_agree_witness :
  process_frame Cli (Scenario.params "put" (Some 0.3) (Some "max")) 100 0 30
    [Scenario.atm] =
  process_frame App (Scenario.params "put" (Some 0.3) (Some "max")) 100 0 30
    [Scenario.atm].
Proof.
  apply (front_ends_agree (Scenario.params "put" (Some 0.3) (Some "max"))
           100 0 30 [Scenario.atm]).
  right; right; reflexivity.
Defined.

(** X6. For puts the sign of the target delta does not matter: the
    stage compares against [-|target|], so a target of [-t] selects the
    same rows as [t]. *)
Theorem put_target_sign_ignored (fe : frontend) (p : ScreeningParameters)
    (t : R) (df : list Priced) :
  option_type p = "put" ->
  delta_filter fe (set_delta_target p (Some (- t))) df =
  delta_filter fe (set_delta_target p (Some t)) df.
Proof.
  intros Hput. unfold delta_filter, max_arm. cbn.
  rewrite !(decide_True (P := option_type p = "put")) by done.
  rewrite Rabs_Ropp.
  assert (Hb : bool_decide (- t <> 0) = bool_decide (t <> 0)).
  { apply bool_decide_ext. split; intros H; lra. }
  by rewrite Hb.
Qed.

Lemma put_target_sign_ignored_witness :
  delta_filter Cli
    (set_delta_target (Scenario.params "put" None (Some "min"))
       (Some (Ropp 0.3)))
    [Scenario.atm_priced] =
  delta_filter Cli
    (set_delta_target (Scenario.params "put" None (Some "min")) (Some 0.3))
    [Scenario.atm_priced].
Proof.
  apply (put_target_sign_ignored Cli
           (Scenario.params "put" None (Some "min")) 0.3 [Scenario.atm_priced]).
  reflexivity.
Defined.


(** * Further properties of the pricing model *)


Lemma sigma_sqrt_pos (T sigma : R) : T > 0 -> sigma > 0 -> 0 < sigma * sqrt T.
Proof. intros HT Hs. apply Rmult_lt_0_compat; [lra | by apply sqrt_lt_R0]. Qed.

Lemma black_scholes_delta_d1 (S K T r sigma : R) (option_type : string) :
  T > 0 -> sigma > 0 ->
  black_scholes_delta S K T r sigma option_type =
    if decide (option_type = "call") then norm_cdf (d1 S K T r sigma)
    else norm_cdf (d1 S K T r sigma) - 1.
Proof. intros HT Hs. by rewrite black_scholes_delta_regular. Qed.





(** X10. A contract at or in the money for a call (spot at least the
    strike), priced with a rate for which [r + sigma^2 / 2] is not
    negative, has a call delta of at least one half and a put delta of
    at least minus one half. *)
Theorem at_the_money_delta (S K T r sigma : R) :
  K > 0 -> K <= S -> T > 0 -> sigma > 0 -> 0 <= r + 0.5 * sigma ^ 2 ->
  1 / 2 <= black_scholes_delta S K T r sigma "call" /\
  - (1 / 2) <= black_scholes_delta S K T r sigma "put".
Proof.
  intros HK HS HT Hs Hr.
  rewrite !black_scholes_delta_d1 by assumption.
  assert (Hd : 0 <= d1 S K T r sigma).
  { unfold d1, Rdiv. apply Rmult_le_pos.
    - assert (0 <= ln (S * / K)).
      { rewrite <- ln_1. destruct (Req_dec (S * / K) 1) as [->|Hne]; [lra|].
        left. apply ln_increasing; [lra|].
        assert (1 <= S * / K).
        { apply (Rmult_le_reg_r K); [lra|]. rewrite Rmult_assoc, Rinv_l; lra. }
        lra. }
      assert (0 <= (r + 0.5 * sigma ^ 2) * T) by (apply Rmult_le_pos; lra).
      lra.
    - left. apply Rinv_0_lt_compat. by apply sigma_sqrt_pos. }
  pose proof (norm_cdf_ge_half _ Hd).
  destruct (decide ("call" = "call")) as [_|Hne]; [|contradiction].
  destruct (decide ("put" = "call")) as [Heq|_]; [discriminate|].
  lra.
Qed.

Lemma at_the_money_delta_witness :
  1 / 2 <= black_scholes_delta 100 100 (30 / 365) 0.05 0.3 "call" /\
  - (1 / 2) <= black_scholes_delta 100 100 (30 / 365) 0.05 0.3 "put".
Proof.
  apply (at_the_money_delta 100 100 (30 / 365) 0.05 0.3); lra.
Defined.

(** * Further properties of the ranking and of the scan *)

Lemma sort_values_sorted (df : list ScoredCandidate) :
  StronglySorted ranks_not_after (sort_values df).
Proof.
  apply stable_sort_sorted.
  - apply ranks_not_after_iff.
  - unfold ranks_before. intros a b; lra.
  - unfold ranks_not_after. intros a b c; lra.
Qed.

Lemma sort_values_nil_iff (df : list ScoredCandidate) :
  sort_values df = [] <-> df = [].
Proof.
  split; [|by intros ->]. intros Hs.
  apply Permutation_nil_r. rewrite <- Hs. symmetry. apply sort_values_perm.
Qed.

Lemma insert_row_first (x : ScoredCandidate) (l : list ScoredCandidate) :
  Forall (ranks_not_after x) l -> insert_row ranks_before x l = x :: l.
Proof.
  intros Hall. destruct l as [|y l]; [done|]. simpl.
  apply Forall_cons in Hall as [Hxy _].
  apply ranks_not_after_iff in Hxy. by rewrite decide_False.
Qed.

(** X11. Ranking a frame that is already in rank order changes
    nothing; in particular ranking twice is ranking once. *)
Theorem sort_values_idempotent (df : list ScoredCandidate) :
  (StronglySorted ranks_not_after df -> sort_values df = df) /\
  sort_values (sort_values df) = sort_values df.
Proof.
  assert (Hfix : forall l, StronglySorted ranks_not_after l -> sort_values l = l).
  { induction 1 as [|x l Hs IH Hall]; [done|].
    unfold sort_values in *. simpl. rewrite IH. by apply insert_row_first. }
  split; [apply Hfix|]. apply Hfix, sort_values_sorted.
Qed.

Lemma succeeded_frames_nil_iff (fe : frontend) (p : ScreeningParameters)
    (current_price : R) (today : Z) (ticker : Ticker) (expirations : list Z) :
  succeeded_frames fe p current_price today ticker expirations = [] <->
  forall exp, exp ∈ expirations -> exists e, option_chain ticker exp = inl e.
Proof.
  unfold succeeded_frames.
  induction expirations as [|exp rest IH]; simpl.
  - split; [|done]. intros _ exp Hexp. by apply elem_of_nil in Hexp.
  - destruct (option_chain ticker exp) as [e|chain] eqn:Hc; simpl.
    + rewrite IH. split.
      * intros Hrest exp' [->|Hin]%elem_of_cons; eauto.
      * intros Hall exp' Hin. apply Hall. by apply list_elem_of_further.
    + split; [done|]. intros Hall.
      destruct (Hall exp (list_elem_of_here _ _)) as [e He]. congruence.
Qed.

Lemma chain_queries_loop_events (ticker : Ticker) (expirations : list Z) :
  chain_queries (loop_events ticker expirations) = expirations.
Proof.
  unfold chain_queries, loop_events.
  induction expirations as [|exp rest IH]; [done|].
  cbn [mbind list_bind]. rewrite omap_app. cbn [omap list_omap].
  destruct (option_chain ticker exp); cbn [omap list_omap app];
    f_equal; exact IH.
Qed.

(** X12. A failure to list the expirations, or to get the spot price,
    ends the run at once: the run exits (it does not raise), no option
    chain is asked for, and neither a table, nor a best candidate, nor
    the "no match" message is printed; when the listing fails the price
    is not asked for either. *)
Theorem fatal_errors_end_the_run (fe : frontend) (p : ScreeningParameters)
    (today : Z) (ticker : Ticker) :
  (exists e, options ticker = inl e) \/
  (exists e, history_close ticker = inl e) ->
  fst (main fe p today ticker) = Exit /\
  chain_queries (snd (main fe p today ticker)) = [] /\
  (Print_no_match ∉ snd (main fe p today ticker)) /\
  (forall rows, Print_table rows ∉ snd (main fe p today ticker)) /\
  (forall best, Print_best best ∉ snd (main fe p today ticker)) /\
  (forall e, options ticker = inl e ->
     snd (main fe p today ticker) = [Query_options; Print_error_expirations e]).
Proof.
  intros Hfail.
  destruct (options ticker) as [e|dates] eqn:Hd.
  - rewrite (main_no_expirations fe p today ticker e Hd). cbn [fst snd].
    split; [done|]. split; [done|].
    split; [intros Hin; elem_cases Hin|].
    split; [intros rows Hin; elem_cases Hin|].
    split; [intros best Hin; elem_cases Hin|].
    by intros e' [= ->].
  - destruct Hfail as [[e He]|[e He]]; [discriminate|].
    rewrite (main_no_price fe p today ticker dates e Hd He). cbn [fst snd].
    split; [done|]. split; [done|].
    split; [intros Hin; elem_cases Hin|].
    split; [intros rows Hin; elem_cases Hin|].
    split; [intros best Hin; elem_cases Hin|].
    intros e' [=].
Qed.

Lemma fatal_errors_end_the_run_witness :
  fst (main Cli Scenario.no_filter 0 Scenario.no_expirations) = Exit /\
  chain_queries (snd (main Cli Scenario.no_filter 0 Scenario.no_expirations)) = [].
Proof.
  destruct (fatal_errors_end_the_run Cli Scenario.no_filter 0
              Scenario.no_expirations) as (Hexit & Hq & _).
  - left. by eexists.
  - by split.
Defined.

(** X13. Once the expirations and the price are in, the option chains
    asked for are exactly the listed expirations up to the maximum
    expiration date, each once and in the listed order, whether or not
    earlier ones failed. *)
Theorem chain_queries_in_range (fe : frontend) (p : ScreeningParameters)
    (today : Z) (ticker : Ticker) (dates : list Z) (current_price : R) :
  options ticker = inr dates -> history_close ticker = inr current_price ->
  chain_queries (snd (main fe p today ticker)) =
    filter (fun d => (d <= max_exp_date p)%Z) dates.
Proof.
  intros Hd Hp.
  rewrite (main_run fe p today ticker dates current_price Hd Hp). cbv zeta.
  cbn [snd]. unfold chain_queries at 1.
  rewrite !omap_app. fold (chain_queries (loop_events ticker
    (filter (fun d => (d <= max_exp_date p)%Z) dates))).
  rewrite chain_queries_loop_events.
  destruct (succeeded_frames _ _ _ _ _ _); [by rewrite app_nil_r|].
  destruct (sort_values _); by rewrite app_nil_r.
Qed.

Lemma chain_queries_in_range_witness :
  chain_queries (snd (main Cli Scenario.no_filter 0 Scenario.one_bad_expiration))
  = filter (fun d => (d <= max_exp_date Scenario.no_filter)%Z)
      [30%Z; 37%Z; 44%Z].
Proof.
  apply (chain_queries_in_range Cli Scenario.no_filter 0
           Scenario.one_bad_expiration [30%Z; 37%Z; 44%Z] 100 eq_refl eq_refl).
Defined.

(** X14. Once the expirations and the price are in, the "no match"
    message is printed exactly when no expiration in range was
    processed to its end (none in range, or every one raised); it is
    not printed when expirations were processed and every contract was
    filtered out. *)
Theorem no_match_iff_nothing_processed (fe : frontend)
    (p : ScreeningParameters) (today : Z) (ticker : Ticker)
    (dates : list Z) (current_price : R) :
  options ticker = inr dates -> history_close ticker = inr current_price ->
  let expirations := filter (fun d => (d <= max_exp_date p)%Z) dates in
  (Print_no_match ∈ snd (main fe p today ticker) <->
   forall exp, exp ∈ expirations -> exists e, option_chain ticker exp = inl e) /\
  (Print_no_match ∈ snd (main fe p today ticker) ->
   fst (main fe p today ticker) = Exit).
Proof.
  intros Hd Hp expirations.
  rewrite <- (succeeded_frames_nil_iff fe p current_price today).
  rewrite (main_run fe p today ticker dates current_price Hd Hp). cbv zeta.
  fold expirations. cbn [fst snd].
  assert (Hloop : Print_no_match ∉ loop_events ticker expirations).
  { rewrite elem_of_loop_events.
    intros (exp & _ & [?|(e & _ & ?)]); discriminate. }
  destruct (succeeded_frames _ _ _ _ _ _) as [|df frames].
  - split; [|done]. split; [done|]. intros _.
    rewrite !elem_of_app. right; right. apply list_elem_of_here.
  - assert (Hno : Print_no_match ∉
      [Query_options; Query_history] ++ loop_events ticker expirations ++
      Print_table (take (head_rows fe) (sort_values (concat (df :: frames)))) ::
      match sort_values (concat (df :: frames)) with
      | [] => []
      | best :: _ => [Print_best best]
      end).
    { rewrite !elem_of_app. intros [Hin|[Hin|Hin]].
      - elem_cases Hin.
      - done.
      - destruct (sort_values _); elem_cases Hin. }
    split; [|done]. split; [done|discriminate].
Qed.

Lemma no_match_iff_nothing_processed_witness :
  Print_no_match ∉ snd (main Cli Scenario.greedy 0 Scenario.atm_only).
Proof.
  destruct (no_match_iff_nothing_processed Cli Scenario.greedy 0
              Scenario.atm_only [30%Z] 100 eq_refl eq_refl) as [Hiff _].
  intros Hin. destruct Hiff as [Hfwd _].
  destruct (Hfwd Hin 30%Z) as [e He]; [|discriminate He].
  rewrite filter_cons, decide_True by (simpl; lia). apply list_elem_of_here.
Defined.

(** X15. Whatever the provider does, the only exception a run can end
    with is [IndexError]: every provider failure is caught.  The run
    ends normally exactly when the expirations and the price were
    obtained and some candidate survived; it raises exactly when they
    were obtained, some expiration was processed, and none survived. *)
Theorem main_outcome (fe : frontend) (p : ScreeningParameters) (today : Z)
    (ticker : Ticker) :
  (forall e, fst (main fe p today ticker) = Raise e -> e = IndexError) /\
  (fst (main fe p today ticker) = Value tt <->
   exists dates current_price,
     options ticker = inr dates /\ history_close ticker = inr current_price /\
     concat (succeeded_frames fe p current_price today ticker
               (filter (fun d => (d <= max_exp_date p)%Z) dates)) <> []) /\
  (fst (main fe p today ticker) = Raise IndexError <->
   exists dates current_price,
     options ticker = inr dates /\ history_close ticker = inr current_price /\
     succeeded_frames fe p current_price today ticker
       (filter (fun d => (d <= max_exp_date p)%Z) dates) <> [] /\
     concat (succeeded_frames fe p current_price today ticker
               (filter (fun d => (d <= max_exp_date p)%Z) dates)) = []).
Proof.
  destruct (options ticker) as [e|dates] eqn:Hd.
  { rewrite (main_no_expirations fe p today ticker e Hd). cbn [fst].
    split; [discriminate|].
    split; (split; [discriminate|]); by intros (? & ? & [=] & _). }
  destruct (history_close ticker) as [e|current_price] eqn:Hp.
  { rewrite (main_no_price fe p today ticker dates e Hd Hp). cbn [fst].
    split; [discriminate|].
    split; (split; [discriminate|]); by intros (? & ? & _ & [=] & _). }
  rewrite (main_run fe p today ticker dates current_price Hd Hp).
  cbv zeta. cbn [fst].
  remember (succeeded_frames fe p current_price today ticker
              (filter (fun d => (d <= max_exp_date p)%Z) dates))
    as frames eqn:Hf.
  pose proof (sort_values_nil_iff (concat frames)) as Hnil.
  destruct frames as [|df frames'].
  { split; [discriminate|].
    split; (split; [discriminate|]).
    - intros (? & ? & [= <-] & [= <-] & Hne).
      rewrite <- Hf in Hne. by destruct Hne.
    - intros (? & ? & [= <-] & [= <-] & Hne & _).
      rewrite <- Hf in Hne. by destruct Hne. }
  destruct (sort_values (concat (df :: frames'))) as [|best rows].
  - split; [by intros e [= <-]|]. split.
    + split; [discriminate|].
      intros (? & ? & [= <-] & [= <-] & Hne).
      rewrite <- Hf in Hne. destruct Hne. by apply Hnil.
    + split; [|done]. intros _. exists dates, current_price.
      rewrite <- Hf. repeat split; [done|]. by apply Hnil.
  - split; [discriminate|]. split.
    + split; [|done]. intros _. exists dates, current_price.
      rewrite <- Hf. repeat split.
      intros Hempty. apply Hnil in Hempty. discriminate Hempty.
    + split; [discriminate|].
      intros (? & ? & [= <-] & [= <-] & _ & Hempty).
      rewrite <- Hf in Hempty. apply Hnil in Hempty. discriminate Hempty.
Qed.

(** X16. The best candidate shown is a survivor, no survivor has a
    larger weekly yield, and none with the same weekly yield has a
    larger expected weekly yield; it is the first row of the table
    shown, which has at most [head_rows] rows; and the run that shows
    it ends normally. *)
Theorem best_candidate_is_top (fe : frontend) (p : ScreeningParameters)
    (today : Z) (ticker : Ticker) (dates : list Z) (current_price : R)
    (best : ScoredCandidate) :
  options ticker = inr dates -> history_close ticker = inr current_price ->
  Print_best best ∈ snd (main fe p today ticker) ->
  let survivors :=
    concat (succeeded_frames fe p current_price today ticker
              (filter (fun d => (d <= max_exp_date p)%Z) dates)) in
  best ∈ survivors /\
  (forall c, c ∈ survivors ->
     weekly_yield c <= weekly_yield best /\ ranks_not_after best c) /\
  (forall rows, Print_table rows ∈ snd (main fe p today ticker) ->
     head rows = Some best /\ (length rows <= head_rows fe)%nat) /\
  fst (main fe p today ticker) = Value tt.
Proof.
  intros Hd Hp. rewrite (main_run fe p today ticker dates current_price Hd Hp).
  cbv zeta. cbn [fst snd].
  set (expirations := filter (fun d => (d <= max_exp_date p)%Z) dates).
  set (frames := succeeded_frames fe p current_price today ticker expirations).
  pose proof (sort_values_perm (concat frames)) as Hperm.
  pose proof (sort_values_sorted (concat frames)) as Hsorted.
  assert (Hloop : forall ev, ev ∈ loop_events ticker expirations ->
            (exists exp, ev = Query_option_chain exp) \/
            (exists exp e, ev = Print_skip exp e)).
  { intros ev (exp & _ & [->|(e & _ & ->)])%elem_of_loop_events; eauto. }
  assert (Hhead : (0 < head_rows fe)%nat) by (destruct fe; simpl; lia).
  destruct frames as [|df frames'] eqn:Hf.
  { rewrite !elem_of_app. intros [Hin|[Hin|Hin]].
    - elem_cases Hin.
    - apply Hloop in Hin as [[? [=]]|(? & ? & [=])].
    - elem_cases Hin. }
  destruct (sort_values (concat (df :: frames'))) as [|top rows] eqn:Hs.
  { rewrite !elem_of_app. intros [Hin|[Hin|Hin]].
    - elem_cases Hin.
    - apply Hloop in Hin as [[? [=]]|(? & ? & [=])].
    - elem_cases Hin. }
  intros Hbest.
  assert (best = top) as ->.
  { rewrite !elem_of_app in Hbest. destruct Hbest as [Hin|[Hin|Hin]].
    - elem_cases Hin.
    - apply Hloop in Hin as [[? [=]]|(? & ? & [=])].
    - elem_cases Hin. by simplify_eq. }
  apply StronglySorted_inv in Hsorted as [_ Hall].
  split; [rewrite <- Hperm; apply list_elem_of_here|].
  split; [|split; [|done]].
  - intros c Hc. rewrite <- Hperm in Hc.
    assert (Hna : ranks_not_after top c).
    { apply elem_of_cons in Hc as [->|Hc].
      - unfold ranks_not_after. lra.
      - by apply (proj1 (Forall_forall _ _) Hall). }
    split; [|done]. unfold ranks_not_after in Hna. lra.
  - intros rows' Hin. rewrite !elem_of_app in Hin.
    destruct Hin as [Hin|[Hin|Hin]].
    + elem_cases Hin.
    + apply Hloop in Hin as [[? [=]]|(? & ? & [=])].
    + elem_cases Hin. simplify_eq. split.
      * destruct (head_rows fe); [lia|done].
      * rewrite length_take. lia.
Qed.

Lemma atm_survives (fe : frontend) :
  process_frame fe Scenario.no_filter 100 0 30 [Scenario.atm] =
    [score_quote Scenario.no_filter 100 0 30 Scenario.atm].
Proof.
  rewrite process_frame_as_filter, filter_cons, decide_True; [done|].
  unfold survives. split; [lia|]. split; [simpl; lra|]. split; [simpl; lra|].
  split; [done|].
  unfold score_quote, add_yields, clip_lower_0, Rmax.
  cbn [weekly_yield measured dated quote mid days_to_exp strike bid ask
       add_delta add_measures add_expiration Scenario.atm Scenario.no_filter
       Scenario.params option_type min_weekly_yield].
  change (30 - 0)%Z with 30%Z.
  destruct (decide ("call" = "call")) as [_|Hne]; [|contradiction].
  destruct (Rle_dec (100 - 100) 0); lra.
Qed.

Lemma best_candidate_is_top_witness :
  fst (main Cli Scenario.no_filter 0 Scenario.atm_only) = Value tt.
Proof.
  apply (best_candidate_is_top Cli Scenario.no_filter 0 Scenario.atm_only
           [30%Z] 100 (score_quote Scenario.no_filter 100 0 30 Scenario.atm)
           eq_refl eq_refl).
  rewrite (main_run Cli Scenario.no_filter 0 Scenario.atm_only [30%Z] 100
             eq_refl eq_refl).
  rewrite filter_cons, decide_True by (simpl; lia).
  rewrite filter_nil. unfold succeeded_frames, loop_events.
  cbn [omap list_omap mbind list_bind Scenario.atm_only option_chain app].
  change (select_side _ _) with [Scenario.atm].
  rewrite atm_survives. cbn.
  do 4 apply list_elem_of_further. apply list_elem_of_here.
Defined.
